(** * PolicyCertVerifier (content/nw/src/policy_cert_verifier.cc)

    A shallow embedding of the policy-overlay certificate verifier: a
    decorator over an external [net::CertVerifier] engine that prepends
    administratively supplied trust anchors to every configuration handed
    to the engine, and runs a notification closure whenever a successful
    verification was issued by one of those anchors.

    The engine, the logging sink and the two kinds of callbacks are outside
    the file; what the verifier does to them is recorded as a chronological
    log of events. *)

From Stdlib Require Import ZArith.
From stdpp Require Import base decidable option list numbers relations.

Local Open Scope Z_scope.

(** ** Declarations of namespace [net] used by the file *)

Module net.

(** Modelled from the spec: the status codes of net/base/net_errors.h,
    which the file includes but which is not part of the sources at hand.
    [OK] is the success status, [ERR_IO_PENDING] the pending/would-block
    status returned by an engine that completes later. *)
Definition OK : Z := 0.
Definition ERR_IO_PENDING : Z := -1.

(** [scoped_refptr<X509Certificate>]: a counted pointer.  Its [operator==]
    compares the pointers, so a certificate is identified by the address
    of the object (0 for the null pointer). *)
Definition X509CertificateRef : Type := N.

(** [net::CertificateList] is a [std::vector] of such pointers; the
    vector's [operator==] is equality of length and of the elements in
    order. *)
Definition CertificateList : Type := list X509CertificateRef.

(** [net::CertVerifyProc], as far as the file looks at it: the object and
    the answer of [SupportsAdditionalTrustAnchors()]. *)
Record CertVerifyProc : Type := {
  proc_address : N;
  SupportsAdditionalTrustAnchors : bool
}.

End net.

(** [base::RepeatingClosure]: null, or bound to some target. *)
Inductive RepeatingClosure : Type :=
| NullClosure
| BoundClosure (target : N).

Definition is_null (c : RepeatingClosure) : bool :=
  match c with
  | NullClosure => true
  | BoundClosure _ => false
  end.

(** [net::CompletionOnceCallback], the caller's completion notification.
    The [net::CertVerifier] interface is not given a null one; it is
    identified by its target. *)
Definition CompletionOnceCallback : Type := N.

(** [explicit operator bool] of a [unique_ptr], [None] being the empty one. *)
Definition has_object {A} (p : option A) : bool :=
  match p with
  | Some _ => true
  | None => false
  end.

(** Ways in which a call does not return. *)
Inductive Fault : Type :=
| DcheckFailure        (* a DCHECK whose condition is false, in a build with DCHECKs *)
| NullDereference.     (* operator-> on an empty unique_ptr or scoped_refptr *)

Section Verifier.

(** The fields of [net::CertVerifier::Config] other than
    [additional_trust_anchors], the value they have in a
    default-constructed [Config], the fields of [net::CertVerifyResult]
    other than [is_issued_by_additional_trust_anchor], and
    [net::CertVerifier::RequestParams]: all declared outside the file. *)
Variable ConfigRest : Type.
Variable default_rest : ConfigRest.
Variable ResultRest : Type.
Variable RequestParams : Type.

(** Whether DCHECKs are compiled in. *)
Variable DCHECK_IS_ON : bool.

Record Config : Type := {
  additional_trust_anchors : net.CertificateList;
  config_rest : ConfigRest
}.

Record CertVerifyResult : Type := {
  is_issued_by_additional_trust_anchor : bool;
  result_rest : ResultRest
}.

(** The value of [base::BindOnce(&CompleteAndSignalAnchorUse,
    anchor_used_callback_, std::move(completion_callback), verify_result)]:
    a once-callback still waiting for its [int error].  The bound
    [verify_result] is a pointer into the caller's memory; what it points
    to is supplied when the callback runs. *)
Record BoundCompletion : Type := {
  bound_anchor_used_callback : RepeatingClosure;
  bound_completion_callback : CompletionOnceCallback
}.

(** The underlying engine ([net::CachingCertVerifier] over
    [net::MultiThreadedCertVerifier]): the procedure it was built from and
    the configuration last given to its [SetConfig], if any. *)
Record CertVerifier : Type := {
  engine_proc : net.CertVerifyProc;
  engine_config : option Config
}.

(** The members of [PolicyCertVerifier]; [delegate_] is a [unique_ptr]. *)
Record PolicyCertVerifier : Type := {
  anchor_used_callback_ : RepeatingClosure;
  orig_config_ : Config;
  trust_anchors_ : net.CertificateList;
  delegate_ : option CertVerifier
}.

(** What the verifier does to its collaborators. *)
Inductive Event : Type :=
| LogWarning                                    (* LOG(WARNING) << ... *)
| DelegateSetConfig (c : Config)                (* delegate_->SetConfig(c) *)
| DelegateVerify (params : RequestParams) (callback : BoundCompletion)
                                                (* delegate_->Verify(...) *)
| AnchorUsedRun (target : N)                    (* anchor_used_callback.Run() *)
| CompletionRun (target : CompletionOnceCallback) (error : Z).
                                                (* completion_callback.Run(error) *)

(** ** The monad: the verifier object and the log, with faults *)

Record World : Type := {
  this : PolicyCertVerifier;
  log : list Event
}.

Inductive Res (A : Type) : Type :=
| Ok (a : A) (w : World)
| Crash (f : Fault) (w : World).
Arguments Ok {A} a w.
Arguments Crash {A} f w.

Definition M (A : Type) : Type := World -> Res A.

Definition ret {A} (a : A) : M A := fun w => Ok a w.

Definition bind {A B} (m : M A) (k : A -> M B) : M B :=
  fun w =>
    match m w with
    | Ok a w' => k a w'
    | Crash f w' => Crash f w'
    end.

#[local] Instance M_ret : MRet M := @ret.
#[local] Instance M_bind : MBind M := fun A B k m => bind m k.

Definition crash {A} (f : Fault) : M A := fun w => Crash f w.

Definition emit (e : Event) : M unit :=
  fun w => Ok tt {| this := this w; log := log w ++ [e] |}.

Definition get_this : M PolicyCertVerifier := fun w => Ok (this w) w.

Definition put_this (p : PolicyCertVerifier) : M unit :=
  fun w => Ok tt {| this := p; log := log w |}.

Definition DCHECK (condition : bool) : M unit :=
  if DCHECK_IS_ON && negb condition then crash DcheckFailure else ret tt.

(** Member updates. *)
Definition set_orig_config (c : Config) (p : PolicyCertVerifier) :=
  {| anchor_used_callback_ := anchor_used_callback_ p;
     orig_config_ := c;
     trust_anchors_ := trust_anchors_ p;
     delegate_ := delegate_ p |}.

Definition set_trust_anchors (a : net.CertificateList) (p : PolicyCertVerifier) :=
  {| anchor_used_callback_ := anchor_used_callback_ p;
     orig_config_ := orig_config_ p;
     trust_anchors_ := a;
     delegate_ := delegate_ p |}.

Definition set_delegate (d : option CertVerifier) (p : PolicyCertVerifier) :=
  {| anchor_used_callback_ := anchor_used_callback_ p;
     orig_config_ := orig_config_ p;
     trust_anchors_ := trust_anchors_ p;
     delegate_ := d |}.

(** ** The engine's side of the interface *)

(** [delegate_->SetConfig(c)]. *)
Definition delegate_SetConfig (c : Config) : M unit :=
  p ← get_this;
  match delegate_ p with
  | None => crash NullDereference
  | Some d =>
      emit (DelegateSetConfig c) ;;
      put_this (set_delegate
                  (Some {| engine_proc := engine_proc d;
                           engine_config := Some c |}) p)
  end.

(** What the engine does with one request: the status its [Verify]
    returns, what [*verify_result] holds at that moment, and, if it later
    runs the callback it was handed, what [*verify_result] holds then and
    the status it passes. *)
Record EngineReply : Type := {
  reply_error : Z;
  reply_result : CertVerifyResult;
  reply_later : option (CertVerifyResult * Z)
}.

(** [delegate_->Verify(params, verify_result, std::move(wrapped_callback),
    out_req, net_log)]. *)
Definition delegate_Verify (params : RequestParams)
    (wrapped_callback : BoundCompletion) (reply : EngineReply)
  : M (Z * CertVerifyResult) :=
  p ← get_this;
  match delegate_ p with
  | None => crash NullDereference
  | Some _ =>
      emit (DelegateVerify params wrapped_callback) ;;
      ret (reply_error reply, reply_result reply)
  end.

(** ** The functions of the anonymous namespace *)

Definition MaybeSignalAnchorUse (error : Z)
    (anchor_used_callback : RepeatingClosure)
    (verify_result : CertVerifyResult) : M unit :=
  if negb (error =? net.OK)
     || negb (is_issued_by_additional_trust_anchor verify_result)
     || is_null anchor_used_callback
  then ret tt
  else
    match anchor_used_callback with
    | BoundClosure target => emit (AnchorUsedRun target)
    | NullClosure => crash NullDereference
    end.

Definition CompleteAndSignalAnchorUse
    (anchor_used_callback : RepeatingClosure)
    (completion_callback : CompletionOnceCallback)
    (verify_result : CertVerifyResult) (error : Z) : M unit :=
  MaybeSignalAnchorUse error anchor_used_callback verify_result ;;
  emit (CompletionRun completion_callback error).

Definition ExtendTrustAnchors (config : Config)
    (trust_anchors : net.CertificateList) : Config :=
  let new_config := config in
  {| additional_trust_anchors :=
       trust_anchors ++ additional_trust_anchors new_config;
     config_rest := config_rest new_config |}.

(** Running a bound completion: the engine supplies the status, the
    caller's memory the result. *)
Definition Run (callback : BoundCompletion)
    (verify_result : CertVerifyResult) (error : Z) : M unit :=
  CompleteAndSignalAnchorUse (bound_anchor_used_callback callback)
    (bound_completion_callback callback) verify_result error.

(** ** The members of [PolicyCertVerifier] *)

(** The constructor: only [anchor_used_callback_] has an initialiser; the
    other members are default-constructed. *)
Definition Construct (anchor_used_callback : RepeatingClosure)
  : PolicyCertVerifier :=
  {| anchor_used_callback_ := anchor_used_callback;
     orig_config_ := {| additional_trust_anchors := [];
                        config_rest := default_rest |};
     trust_anchors_ := [];
     delegate_ := None |}.

Definition InitializeOnIOThread (verify_proc : option net.CertVerifyProc)
  : M unit :=
  match verify_proc with
  | None => crash NullDereference
  | Some proc =>
      (if negb (net.SupportsAdditionalTrustAnchors proc)
       then emit LogWarning else ret tt) ;;
      p ← get_this;
      put_this (set_delegate
                  (Some {| engine_proc := proc; engine_config := None |}) p) ;;
      p ← get_this;
      delegate_SetConfig (ExtendTrustAnchors (orig_config_ p) (trust_anchors_ p))
  end.

Definition SetTrustAnchors (trust_anchors : net.CertificateList) : M unit :=
  p ← get_this;
  if decide (trust_anchors = trust_anchors_ p) then ret tt
  else
    put_this (set_trust_anchors trust_anchors p) ;;
    p ← get_this;
    if negb (has_object (delegate_ p)) then ret tt
    else
      delegate_SetConfig (ExtendTrustAnchors (orig_config_ p) (trust_anchors_ p)).

Definition Verify (params : RequestParams)
    (completion_callback : CompletionOnceCallback) (reply : EngineReply)
  : M Z :=
  p ← get_this;
  DCHECK (has_object (delegate_ p)) ;;
  let wrapped_callback :=
    {| bound_anchor_used_callback := anchor_used_callback_ p;
       bound_completion_callback := completion_callback |} in
  r ← delegate_Verify params wrapped_callback reply;
  let error := fst r in
  let verify_result := snd r in
  p ← get_this;
  MaybeSignalAnchorUse error (anchor_used_callback_ p) verify_result ;;
  ret error.

Definition SetConfig (config : Config) : M unit :=
  p ← get_this;
  put_this (set_orig_config config p) ;;
  p ← get_this;
  delegate_SetConfig (ExtendTrustAnchors (orig_config_ p) (trust_anchors_ p)).

(** ** Derived notions used to state the properties *)

(** The callback [Verify] hands to the engine for a caller's
    [completion_callback]. *)
Definition wrapped_callback_of (p : PolicyCertVerifier)
    (completion_callback : CompletionOnceCallback) : BoundCompletion :=
  {| bound_anchor_used_callback := anchor_used_callback_ p;
     bound_completion_callback := completion_callback |}.

(** The engine's later step for a request: it runs the callback it was
    handed, if its reply says so. *)
Definition engine_completion (callback : BoundCompletion)
    (reply : EngineReply) : M unit :=
  match reply_later reply with
  | Some (verify_result, error) => Run callback verify_result error
  | None => ret tt
  end.

(** The interface contract of [net::CertVerifier::Verify]: the callback is
    run later only by an engine that returned [ERR_IO_PENDING]. *)
Definition engine_contract (reply : EngineReply) : Prop :=
  is_Some (reply_later reply) -> reply_error reply = net.ERR_IO_PENDING.

(** The result and status with which a request completes, if it does. *)
Definition completion (reply : EngineReply) : option (CertVerifyResult * Z) :=
  match reply_later reply with
  | Some c => Some c
  | None =>
      if reply_error reply =? net.ERR_IO_PENDING then None
      else Some (reply_result reply, reply_error reply)
  end.

Definition is_AnchorUsedRun (e : Event) : bool :=
  match e with AnchorUsedRun _ => true | _ => false end.

Definition is_DelegateSetConfig (e : Event) : bool :=
  match e with DelegateSetConfig _ => true | _ => false end.

Fixpoint count_events (f : Event -> bool) (l : list Event) : nat :=
  match l with
  | [] => O
  | e :: l' => if f e then S (count_events f l') else count_events f l'
  end.

(** Calls a client can make on a verifier, and runs of them. *)
Inductive Call : Type :=
| CallInitialize (verify_proc : option net.CertVerifyProc)
| CallSetTrustAnchors (trust_anchors : net.CertificateList)
| CallSetConfig (config : Config)
| CallVerify (params : RequestParams)
             (completion_callback : CompletionOnceCallback)
             (reply : EngineReply).

Definition perform (c : Call) : M unit :=
  match c with
  | CallInitialize verify_proc => InitializeOnIOThread verify_proc
  | CallSetTrustAnchors trust_anchors => SetTrustAnchors trust_anchors
  | CallSetConfig config => SetConfig config
  | CallVerify params completion_callback reply =>
      Verify params completion_callback reply ;; ret tt
  end.

Fixpoint perform_all (cs : list Call) : M unit :=
  match cs with
  | [] => ret tt
  | c :: cs' => perform c ;; perform_all cs'
  end.

Definition fresh (anchor_used_callback : RepeatingClosure) : World :=
  {| this := Construct anchor_used_callback; log := [] |}.

(** The engine, once bound, holds the effective configuration. *)
Definition engine_in_sync (w : World) : Prop :=
  forall d, delegate_ (this w) = Some d ->
    engine_config d =
      Some (ExtendTrustAnchors (orig_config_ (this w)) (trust_anchors_ (this w))).

(** ** Runs of a verifier together with its engine *)

(** One step: a client's call that returns, or the engine running a
    callback that [Verify] handed to it earlier. *)
Inductive step : World -> World -> Prop :=
| step_call (c : Call) (w w' : World) :
    perform c w = Ok tt w' -> step w w'
| step_complete (params : RequestParams) (callback : BoundCompletion)
    (verify_result : CertVerifyResult) (error : Z) (w w' : World) :
    DelegateVerify params callback ∈ log w ->
    Run callback verify_result error w = Ok tt w' -> step w w'.

(** The states of a verifier constructed with closure [h]. *)
Definition reachable (h : RepeatingClosure) (w : World) : Prop :=
  rtc step (fresh h) w.

(** The state in which a call ends, returned from or not. *)
Definition world_of {A} (r : Res A) : World :=
  match r with
  | Ok _ w => w
  | Crash _ w => w
  end.

(** The closure an event runs or carries, if any, is [h]. *)
Definition event_closure_is (h : RepeatingClosure) (e : Event) : Prop :=
  match e with
  | AnchorUsedRun k => h = BoundClosure k
  | DelegateVerify _ callback => bound_anchor_used_callback callback = h
  | _ => True
  end.

(** ** [DefaultCertVerifyProcFactory] *)

(** The build flags [CreateCertVerifyProc] is compiled under. *)
Record BuildFlags : Type := {
  CHROME_ROOT_STORE_OPTIONAL : bool;
  CHROME_ROOT_STORE_ONLY : bool;
  IS_FUCHSIA : bool;
  IS_LINUX : bool;
  IS_CHROMEOS : bool
}.

(** [net::CertNetFetcher], [net::CRLSet] and the root store data, all
    declared outside the file. *)
Variable CertNetFetcher : Type.
Variable CRLSet : Type.
Variable ChromeRootStoreData : Type.

(** [net::CertVerifyProcFactory::ImplParams], as far as the file reads it:
    [crl_set] is a [scoped_refptr], [root_store_data] an [optional]. *)
Record ImplParams : Type := {
  crl_set : option CRLSet;
  root_store_data : option ChromeRootStoreData
}.

(** A call of one of the three static creators of [net::CertVerifyProc],
    with its arguments: counted pointers, and for the root store data the
    plain pointer [base::OptionalToPtr] makes of the [optional]. *)
Inductive ProcCreation : Type :=
| BuiltinWithChromeRootStore (cert_net_fetcher : option CertNetFetcher)
    (crl : option CRLSet) (root_store : option ChromeRootStoreData)
| BuiltinVerifyProc (cert_net_fetcher : option CertNetFetcher)
    (crl : option CRLSet)
| SystemVerifyProc (cert_net_fetcher : option CertNetFetcher)
    (crl : option CRLSet).

(** What the creators return, and what a [scoped_refptr] holds after
    [std::move] of it was passed to a creator: both decided by declarations
    outside the file. *)
Variable create : ProcCreation -> option net.CertVerifyProc.
Variable moved_from : option CertNetFetcher -> option CertNetFetcher.

(** [CreateCertVerifyProc]: the procedure returned and the creators called,
    in order.  [kChromeRootStoreUsed] is the answer of
    [base::FeatureList::IsEnabled(net::features::kChromeRootStoreUsed)];
    [impl_params] is a reference to const, so [std::move] of its [crl_set]
    copies. *)
Definition CreateCertVerifyProc (flags : BuildFlags)
    (kChromeRootStoreUsed : bool)
    (cert_net_fetcher : option CertNetFetcher) (impl_params : ImplParams)
  : option net.CertVerifyProc * list ProcCreation :=
  let verify_proc : option net.CertVerifyProc := None in
  let '(verify_proc, cert_net_fetcher, calls) :=
    if CHROME_ROOT_STORE_OPTIONAL flags then
      if negb (has_object verify_proc) && kChromeRootStoreUsed then
        let c := BuiltinWithChromeRootStore cert_net_fetcher
                   (crl_set impl_params) (root_store_data impl_params) in
        (create c, moved_from cert_net_fetcher, [c])
      else (verify_proc, cert_net_fetcher, [])
    else (verify_proc, cert_net_fetcher, []) in
  if negb (has_object verify_proc) then
    let c :=
      if CHROME_ROOT_STORE_ONLY flags then
        BuiltinWithChromeRootStore cert_net_fetcher
          (crl_set impl_params) (root_store_data impl_params)
      else if IS_FUCHSIA flags || IS_LINUX flags || IS_CHROMEOS flags then
        BuiltinVerifyProc cert_net_fetcher (crl_set impl_params)
      else
        SystemVerifyProc cert_net_fetcher (crl_set impl_params) in
    (create c, calls ++ [c])
  else (verify_proc, calls).

Definition is_chrome_root_store (c : ProcCreation) : bool :=
  match c with
  | BuiltinWithChromeRootStore _ _ _ => true
  | _ => false
  end.

(** ** Properties *)

Ltac run_M :=
  unfold delegate_SetConfig, delegate_Verify, DCHECK,
    mbind, mret, M_bind, M_ret, bind, ret, crash, emit, get_this, put_this
    in *;
  simpl in *.

Lemma count_events_app f (l1 l2 : list Event) :
  count_events f (l1 ++ l2) = (count_events f l1 + count_events f l2)%nat.
Proof.
  induction l1 as [|e l1 IH]; simpl; [reflexivity|].
  destruct (f e); rewrite IH; reflexivity.
Qed.

Lemma Config_eta (c : Config) :
  {| additional_trust_anchors := additional_trust_anchors c;
     config_rest := config_rest c |} = c.
Proof. destruct c; reflexivity. Qed.

(** C1: the derived configuration has the new anchors in front of the
    base configuration's anchors, in order, and every other field of the
    base configuration; being a function on values, the derivation leaves
    the base configuration as it was. *)
Theorem ExtendTrustAnchors_prepends (C : Config) (A : net.CertificateList) :
  additional_trust_anchors (ExtendTrustAnchors C A)
    = A ++ additional_trust_anchors C
  /\ config_rest (ExtendTrustAnchors C A) = config_rest C
  /\ length (additional_trust_anchors (ExtendTrustAnchors C A))
      = (length A + length (additional_trust_anchors C))%nat
  /\ (forall i x, A !! i = Some x ->
        additional_trust_anchors (ExtendTrustAnchors C A) !! i = Some x)
  /\ (forall i, additional_trust_anchors (ExtendTrustAnchors C A)
                  !! (length A + i)%nat
                = additional_trust_anchors C !! i).
Proof.
  unfold ExtendTrustAnchors, net.CertificateList;
    cbn [additional_trust_anchors config_rest].
  repeat split.
  - apply length_app.
  - intros i x Hi. apply lookup_app_l_Some, Hi.
  - intros i. rewrite lookup_app_r by lia. f_equal. lia.
Qed.

(** *** The anchor-usage check *)

Lemma MaybeSignalAnchorUse_fires r k w :
  is_issued_by_additional_trust_anchor r = true ->
  MaybeSignalAnchorUse net.OK (BoundClosure k) r w
    = Ok tt {| this := this w; log := log w ++ [AnchorUsedRun k] |}.
Proof.
  intros Hr. unfold MaybeSignalAnchorUse. rewrite Hr. reflexivity.
Qed.

Lemma MaybeSignalAnchorUse_silent e h r w :
  e <> net.OK \/ is_issued_by_additional_trust_anchor r = false
    \/ is_null h = true ->
  MaybeSignalAnchorUse e h r w = Ok tt w.
Proof.
  intros H. unfold MaybeSignalAnchorUse.
  destruct (Z.eqb_spec e net.OK) as [He|He]; simpl.
  - destruct (is_issued_by_additional_trust_anchor r); simpl.
    + destruct H as [H|[H|H]]; [contradiction|discriminate|].
      rewrite H. reflexivity.
    + reflexivity.
  - reflexivity.
Qed.

Lemma MaybeSignalAnchorUse_cases e h r w :
  (e = net.OK /\ is_issued_by_additional_trust_anchor r = true
     /\ exists k, h = BoundClosure k
       /\ MaybeSignalAnchorUse e h r w
          = Ok tt {| this := this w; log := log w ++ [AnchorUsedRun k] |})
  \/ ((e <> net.OK \/ is_issued_by_additional_trust_anchor r = false
         \/ is_null h = true)
      /\ MaybeSignalAnchorUse e h r w = Ok tt w).
Proof.
  destruct (Z.eq_dec e net.OK) as [He|He];
    [|right; split; [auto|apply MaybeSignalAnchorUse_silent; auto]].
  destruct (is_issued_by_additional_trust_anchor r) eqn:Hr;
    [|right; split; [auto|apply MaybeSignalAnchorUse_silent; auto]].
  destruct h as [|k];
    [right; split; [auto|apply MaybeSignalAnchorUse_silent; auto]|].
  left. subst e. repeat split. exists k. split; [reflexivity|].
  apply MaybeSignalAnchorUse_fires, Hr.
Qed.



(** *** Reconfiguration of the engine *)

Definition with_engine_config (d : CertVerifier) (c : Config) : CertVerifier :=
  {| engine_proc := engine_proc d; engine_config := Some c |}.

Lemma delegate_SetConfig_bound c w d :
  delegate_ (this w) = Some d ->
  delegate_SetConfig c w
    = Ok tt {| this := set_delegate (Some (with_engine_config d c)) (this w);
               log := log w ++ [DelegateSetConfig c] |}.
Proof. intros Hd. run_M. rewrite Hd. reflexivity. Qed.

Lemma delegate_SetConfig_unbound c w :
  delegate_ (this w) = None ->
  delegate_SetConfig c w = Crash NullDereference w.
Proof. intros Hd. run_M. rewrite Hd. reflexivity. Qed.

Lemma SetTrustAnchors_same A w :
  trust_anchors_ (this w) = A -> SetTrustAnchors A w = Ok tt w.
Proof.
  intros HA. unfold SetTrustAnchors. run_M.
  destruct (decide (A = trust_anchors_ (this w))) as [_|Hne];
    [reflexivity|congruence].
Qed.

Lemma SetTrustAnchors_unbound A w :
  delegate_ (this w) = None ->
  SetTrustAnchors A w
    = Ok tt {| this := set_trust_anchors A (this w); log := log w |}.
Proof.
  intros Hd. unfold SetTrustAnchors. run_M.
  destruct (decide (A = trust_anchors_ (this w))) as [->|Hne].
  - destruct w as [[? ? ? ?] ?]; reflexivity.
  - rewrite Hd. reflexivity.
Qed.

Lemma SetTrustAnchors_bound A w d :
  delegate_ (this w) = Some d ->
  A <> trust_anchors_ (this w) ->
  let c := ExtendTrustAnchors (orig_config_ (this w)) A in
  SetTrustAnchors A w
    = Ok tt {| this := set_delegate (Some (with_engine_config d c))
                         (set_trust_anchors A (this w));
               log := log w ++ [DelegateSetConfig c] |}.
Proof.
  intros Hd Hne c. unfold SetTrustAnchors. run_M.
  destruct (decide (A = trust_anchors_ (this w))) as [->|_];
    [contradiction|].
  rewrite Hd. simpl. rewrite Hd. reflexivity.
Qed.

(** What one [SetTrustAnchors] leaves behind, in every state. *)
Lemma SetTrustAnchors_returns A w :
  exists w1 l, SetTrustAnchors A w = Ok tt w1
    /\ trust_anchors_ (this w1) = A
    /\ log w1 = log w ++ l
    /\ (count_events is_DelegateSetConfig l <= 1)%nat.
Proof.
  destruct (decide (A = trust_anchors_ (this w))) as [HA|Hne].
  - exists w, []. rewrite SetTrustAnchors_same by auto.
    rewrite app_nil_r. simpl. repeat split; auto.
  - destruct (delegate_ (this w)) as [d|] eqn:Hd.
    + eexists _, [_]. rewrite (SetTrustAnchors_bound _ _ _ Hd Hne).
      simpl. repeat split; auto.
    + eexists _, []. rewrite (SetTrustAnchors_unbound _ _ Hd). simpl.
      rewrite app_nil_r. repeat split; auto.
Qed.

(** C2: [SetTrustAnchors(A)] on a verifier whose stored anchors are
    already [A] changes nothing (members, engine, log); so of two calls in
    succession the second is such a call, and together they reconfigure
    the engine at most once. *)
Theorem SetTrustAnchors_idempotent (A : net.CertificateList) (w : World) :
  (trust_anchors_ (this w) = A -> SetTrustAnchors A w = Ok tt w)
  /\ exists w1 l,
       SetTrustAnchors A w = Ok tt w1
       /\ SetTrustAnchors A w1 = Ok tt w1
       /\ (SetTrustAnchors A ;; SetTrustAnchors A) w = Ok tt w1
       /\ log w1 = log w ++ l
       /\ (count_events is_DelegateSetConfig (log w1)
           <= count_events is_DelegateSetConfig (log w) + 1)%nat.
Proof.
  split; [apply SetTrustAnchors_same|].
  destruct (SetTrustAnchors_returns A w) as (w1 & l & Hrun & HA & Hlog & Hn).
  exists w1, l. pose proof (SetTrustAnchors_same A w1 HA) as Hagain.
  repeat split; auto.
  - unfold mbind, M_bind, bind. rewrite Hrun. exact Hagain.
  - rewrite Hlog, count_events_app. lia.
Qed.

(** *** Binding the engine *)

Definition warning_if_unsupported (proc : net.CertVerifyProc) : list Event :=
  if net.SupportsAdditionalTrustAnchors proc then [] else [LogWarning].

Lemma InitializeOnIOThread_returns proc w :
  let c := ExtendTrustAnchors (orig_config_ (this w)) (trust_anchors_ (this w)) in
  InitializeOnIOThread (Some proc) w
    = Ok tt {| this := set_delegate
                         (Some {| engine_proc := proc; engine_config := Some c |})
                         (this w);
               log := log w ++ warning_if_unsupported proc
                        ++ [DelegateSetConfig c] |}.
Proof.
  intros c. unfold InitializeOnIOThread, warning_if_unsupported. run_M.
  destruct (net.SupportsAdditionalTrustAnchors proc); simpl.
  - reflexivity.
  - rewrite <- app_assoc. reflexivity.
Qed.

(** C9: whatever the procedure answers about additional trust anchors,
    initialization returns normally with the engine bound to that
    procedure and configured with the base configuration extended by the
    stored anchors; the answer only decides whether a warning is logged
    first. *)
Theorem InitializeOnIOThread_proceeds (proc : net.CertVerifyProc) (w : World) :
  let c := ExtendTrustAnchors (orig_config_ (this w)) (trust_anchors_ (this w)) in
  exists w',
    InitializeOnIOThread (Some proc) w = Ok tt w'
    /\ delegate_ (this w')
         = Some {| engine_proc := proc; engine_config := Some c |}
    /\ additional_trust_anchors c
         = trust_anchors_ (this w)
             ++ additional_trust_anchors (orig_config_ (this w))
    /\ orig_config_ (this w') = orig_config_ (this w)
    /\ trust_anchors_ (this w') = trust_anchors_ (this w)
    /\ log w'
         = log w
             ++ (if net.SupportsAdditionalTrustAnchors proc then []
                 else [LogWarning])
             ++ [DelegateSetConfig c].
Proof.
  intros c. eexists. split; [apply InitializeOnIOThread_returns|].
  simpl. repeat split.
Qed.

(** C6: on a verifier with no engine bound, [SetTrustAnchors(A)] stores
    [A] and does nothing else; a following [InitializeOnIOThread] then
    gives the new engine the base configuration with [A] in front of its
    anchors. *)
Theorem SetTrustAnchors_then_Initialize (A : net.CertificateList)
    (proc : net.CertVerifyProc) (w : World) :
  delegate_ (this w) = None ->
  let c := ExtendTrustAnchors (orig_config_ (this w)) A in
  exists w1 w2,
    SetTrustAnchors A w = Ok tt w1
    /\ trust_anchors_ (this w1) = A
    /\ orig_config_ (this w1) = orig_config_ (this w)
    /\ delegate_ (this w1) = None
    /\ log w1 = log w
    /\ InitializeOnIOThread (Some proc) w1 = Ok tt w2
    /\ delegate_ (this w2)
         = Some {| engine_proc := proc; engine_config := Some c |}
    /\ count_events is_DelegateSetConfig (log w2)
         = S (count_events is_DelegateSetConfig (log w))
    /\ (exists l, log w2 = log w ++ l ++ [DelegateSetConfig c])
    /\ additional_trust_anchors c
         = A ++ additional_trust_anchors (orig_config_ (this w)).
Proof.
  intros Hd c. eexists _, _.
  split; [apply SetTrustAnchors_unbound, Hd|].
  simpl. do 4 (split; [auto|]).
  split; [apply InitializeOnIOThread_returns|].
  simpl. split; [reflexivity|]. split; [|split; [eauto|reflexivity]].
  rewrite !count_events_app. unfold warning_if_unsupported.
  destruct (net.SupportsAdditionalTrustAnchors proc); simpl; lia.
Qed.

(** *** Replacing the base configuration *)

Lemma SetConfig_bound c w d :
  delegate_ (this w) = Some d ->
  let c' := ExtendTrustAnchors c (trust_anchors_ (this w)) in
  SetConfig c w
    = Ok tt {| this := set_delegate (Some (with_engine_config d c'))
                         (set_orig_config c (this w));
               log := log w ++ [DelegateSetConfig c'] |}.
Proof.
  intros Hd c'. unfold SetConfig. run_M. rewrite Hd. reflexivity.
Qed.

Lemma SetConfig_unbound c w :
  delegate_ (this w) = None ->
  SetConfig c w
    = Crash NullDereference
        {| this := set_orig_config c (this w); log := log w |}.
Proof.
  intros Hd. unfold SetConfig. run_M. rewrite Hd. reflexivity.
Qed.

(** *** Verification requests *)

Lemma Verify_unbound params cb reply w :
  delegate_ (this w) = None ->
  Verify params cb reply w
    = Crash (if DCHECK_IS_ON then DcheckFailure else NullDereference) w.
Proof.
  intros Hd. unfold Verify. run_M. rewrite Hd. simpl.
  rewrite andb_true_r. destruct DCHECK_IS_ON; simpl; [reflexivity|].
  rewrite Hd. reflexivity.
Qed.

Lemma Verify_bound params cb reply w d :
  delegate_ (this w) = Some d ->
  Verify params cb reply w
    = (MaybeSignalAnchorUse (reply_error reply)
         (anchor_used_callback_ (this w)) (reply_result reply) ;;
       mret (reply_error reply))
        {| this := this w;
           log := log w
                    ++ [DelegateVerify params (wrapped_callback_of (this w) cb)] |}.
Proof.
  intros Hd. unfold Verify. run_M. rewrite Hd. simpl.
  rewrite andb_false_r. simpl. rewrite Hd. reflexivity.
Qed.

(** [Verify] on a bound verifier: it returns the engine's status, and the
    log grows by the call of the engine and at most one run of the
    closure. *)
Lemma Verify_returns params cb reply w d :
  delegate_ (this w) = Some d ->
  exists w1 l,
    Verify params cb reply w = Ok (reply_error reply) w1
    /\ this w1 = this w
    /\ log w1 = log w
                  ++ DelegateVerify params (wrapped_callback_of (this w) cb) :: l
    /\ ((reply_error reply = net.OK
          /\ is_issued_by_additional_trust_anchor (reply_result reply) = true
          /\ exists k, anchor_used_callback_ (this w) = BoundClosure k
                /\ l = [AnchorUsedRun k])
        \/ ((reply_error reply <> net.OK
              \/ is_issued_by_additional_trust_anchor (reply_result reply) = false
              \/ is_null (anchor_used_callback_ (this w)) = true)
            /\ l = [])).
Proof.
  intros Hd. rewrite (Verify_bound _ _ _ _ _ Hd).
  unfold mbind, mret, M_bind, M_ret, bind, ret.
  match goal with
  | |- context [MaybeSignalAnchorUse ?e ?h ?r ?w0] =>
      destruct (MaybeSignalAnchorUse_cases e h r w0)
        as [(He & Hr & k & Hh & Hrun)|[Hno Hrun]]; rewrite Hrun
  end; simpl.
  - eexists _, [AnchorUsedRun k]. split; [reflexivity|]. simpl.
    split; [reflexivity|]. split; [rewrite <- app_assoc; reflexivity|].
    left. eauto.
  - eexists _, []. split; [reflexivity|]. simpl.
    split; [reflexivity|]. split; [reflexivity|]. right. auto.
Qed.

Lemma Run_returns h cb res err w :
  exists w2 l,
    Run {| bound_anchor_used_callback := h;
           bound_completion_callback := cb |} res err w = Ok tt w2
    /\ this w2 = this w
    /\ log w2 = log w ++ l ++ [CompletionRun cb err]
    /\ ((err = net.OK /\ is_issued_by_additional_trust_anchor res = true
          /\ exists k, h = BoundClosure k /\ l = [AnchorUsedRun k])
        \/ ((err <> net.OK
              \/ is_issued_by_additional_trust_anchor res = false
              \/ is_null h = true)
            /\ l = [])).
Proof.
  unfold Run, CompleteAndSignalAnchorUse; simpl. run_M.
  destruct (MaybeSignalAnchorUse_cases err h res w)
    as [(He & Hr & k & Hh & Hrun)|[Hno Hrun]]; rewrite Hrun; simpl.
  - eexists _, [AnchorUsedRun k]. split; [reflexivity|]. simpl.
    split; [reflexivity|]. split; [rewrite <- app_assoc; reflexivity|].
    left. eauto.
  - eexists _, []. split; [reflexivity|]. simpl.
    split; [reflexivity|]. split; [reflexivity|]. right. auto.
Qed.


(** C7: on a verifier with no engine bound, [Verify] does not return: in
    a build with DCHECKs it stops at [DCHECK(delegate_)], before anything
    has been done; after [InitializeOnIOThread] the DCHECK passes and the
    call through [delegate_] returns. *)
Theorem Verify_requires_Initialize (params : RequestParams)
    (cb : CompletionOnceCallback) (reply : EngineReply) (w : World) :
  (delegate_ (this w) = None ->
     DCHECK (has_object (delegate_ (this w))) w
       = (if DCHECK_IS_ON then Crash DcheckFailure w else Ok tt w)
     /\ Verify params cb reply w
         = Crash (if DCHECK_IS_ON then DcheckFailure else NullDereference) w)
  /\ (forall proc w0,
        InitializeOnIOThread (Some proc) w0 = Ok tt w ->
        DCHECK (has_object (delegate_ (this w))) w = Ok tt w
        /\ (exists r w', delegate_Verify params (wrapped_callback_of (this w) cb)
                           reply w = Ok r w')
        /\ exists w', Verify params cb reply w = Ok (reply_error reply) w').
Proof.
  split.
  - intros Hd. split; [|apply Verify_unbound, Hd].
    unfold DCHECK. rewrite Hd. simpl. rewrite andb_true_r.
    destruct DCHECK_IS_ON; reflexivity.
  - intros proc w0 Hinit. rewrite InitializeOnIOThread_returns in Hinit.
    injection Hinit as <-. simpl. split; [|split].
    + unfold DCHECK. simpl. rewrite andb_false_r. reflexivity.
    + run_M. eauto.
    + edestruct Verify_returns as (w1 & l & Hrun & _); [|eexists; exact Hrun].
      reflexivity.
Qed.

(** C8: [SetConfig] on a freshly constructed verifier.  The new base
    configuration is stored and [delegate_], which is empty, is
    dereferenced; no DCHECK stands in front of it, whatever the build,
    whereas [Verify] in the same state stops at its DCHECK. *)
Theorem SetConfig_before_Initialize_unguarded (h : RepeatingClosure)
    (c : Config) (params : RequestParams) (cb : CompletionOnceCallback)
    (reply : EngineReply) :
  SetConfig c (fresh h)
    = Crash NullDereference
        {| this := set_orig_config c (Construct h); log := [] |}
  /\ Verify params cb reply (fresh h)
      = Crash (if DCHECK_IS_ON then DcheckFailure else NullDereference)
          (fresh h).
Proof.
  split.
  - apply (SetConfig_unbound c (fresh h)). reflexivity.
  - apply Verify_unbound. reflexivity.
Qed.

(** X9: On a bound verifier [SetConfig] stores the new base configuration and
    gives the engine that configuration with the stored anchors in
    front. *)
Lemma SetConfig_initialized c w d :
  delegate_ (this w) = Some d ->
  let c' := ExtendTrustAnchors c (trust_anchors_ (this w)) in
  exists w',
    SetConfig c w = Ok tt w'
    /\ orig_config_ (this w') = c
    /\ trust_anchors_ (this w') = trust_anchors_ (this w)
    /\ delegate_ (this w') = Some (with_engine_config d c')
    /\ additional_trust_anchors c'
         = trust_anchors_ (this w) ++ additional_trust_anchors c
    /\ log w' = log w ++ [DelegateSetConfig c'].
Proof.
  intros Hd c'. eexists. split; [apply (SetConfig_bound _ _ _ Hd)|].
  simpl. repeat split.
Qed.

(** C5: on a bound verifier [Verify] returns exactly the status the
    engine returned, and the callback it handed to the engine, whenever
    and with whatever status the engine runs it, runs the caller's
    completion callback with that same status, as the last thing it does
    and whether or not the anchor-used closure ran before. *)
Theorem Verify_passes_status_through (params : RequestParams)
    (cb : CompletionOnceCallback) (reply : EngineReply) (w : World)
    (d : CertVerifier) :
  delegate_ (this w) = Some d ->
  (exists w1 l,
     Verify params cb reply w = Ok (reply_error reply) w1
     /\ log w1 = log w
                   ++ DelegateVerify params (wrapped_callback_of (this w) cb) :: l)
  /\ (forall res err w1, exists w2 l,
        Run (wrapped_callback_of (this w) cb) res err w1 = Ok tt w2
        /\ log w2 = log w1 ++ l ++ [CompletionRun cb err]
        /\ (l = [] \/ exists k, l = [AnchorUsedRun k])).
Proof.
  intros Hd. split.
  - destruct (Verify_returns params cb reply w d Hd)
      as (w1 & l & Hrun & _ & Hlog & _). eauto.
  - intros res err w1. unfold wrapped_callback_of.
    destruct (Run_returns (anchor_used_callback_ (this w)) cb res err w1)
      as (w2 & l & Hrun & _ & Hlog & Hl).
    exists w2, l. repeat split; auto.
    destruct Hl as [(_ & _ & k & _ & ->)|[_ ->]]; eauto.
Qed.

(** C4: a request that completes with [net::OK] and a result flagged as
    issued by an additional trust anchor, on a verifier with a non-null
    closure, runs the closure exactly once.  If the engine completed
    synchronously the run is in the log when [Verify] returns and nothing
    follows; if it completed through the callback, [Verify] itself ran
    nothing and the callback runs the closure and then the caller's
    completion callback. *)
Theorem anchor_use_signalled_once (params : RequestParams)
    (cb : CompletionOnceCallback) (reply : EngineReply) (w : World)
    (d : CertVerifier) (k : N) (res : CertVerifyResult) :
  delegate_ (this w) = Some d ->
  anchor_used_callback_ (this w) = BoundClosure k ->
  engine_contract reply ->
  completion reply = Some (res, net.OK) ->
  is_issued_by_additional_trust_anchor res = true ->
  let wrapped := wrapped_callback_of (this w) cb in
  exists w1 w2,
    Verify params cb reply w = Ok (reply_error reply) w1
    /\ engine_completion wrapped reply w1 = Ok tt w2
    /\ count_events is_AnchorUsedRun (log w2)
         = S (count_events is_AnchorUsedRun (log w))
    /\ (reply_later reply = None ->
          reply_error reply = net.OK
          /\ log w1 = log w ++ [DelegateVerify params wrapped; AnchorUsedRun k]
          /\ w2 = w1)
    /\ (is_Some (reply_later reply) ->
          reply_error reply = net.ERR_IO_PENDING
          /\ log w1 = log w ++ [DelegateVerify params wrapped]
          /\ log w2 = log w1 ++ [AnchorUsedRun k; CompletionRun cb net.OK]).
Proof.
  intros Hd Hk Hcontract Hcompl Hres wrapped.
  destruct (Verify_returns params cb reply w d Hd)
    as (w1 & l & Hrun & Hthis & Hlog & Hl).
  exists w1. unfold engine_completion, completion in *.
  destruct (reply_later reply) as [[res' err]|] eqn:Hlater.
  - (* completion through the callback *)
    injection Hcompl as -> ->.
    assert (Hpending : reply_error reply = net.ERR_IO_PENDING)
      by (apply Hcontract; eauto).
    assert (Hl' : l = []).
    { destruct Hl as [(He & _)|[_ Hl]]; [|exact Hl].
      rewrite Hpending in He. discriminate. }
    subst l.
    assert (Hcb : Run wrapped res net.OK w1
                  = Ok tt {| this := this w1;
                             log := log w1 ++ [AnchorUsedRun k;
                                               CompletionRun cb net.OK] |}).
    { subst wrapped. unfold Run, wrapped_callback_of; simpl. rewrite Hk.
      unfold CompleteAndSignalAnchorUse. run_M.
      rewrite (MaybeSignalAnchorUse_fires res k w1 Hres). simpl.
      rewrite <- app_assoc. reflexivity. }
    eexists. split; [exact Hrun|]. split; [exact Hcb|]. simpl.
    split; [|split].
    + rewrite Hlog, !count_events_app. simpl. lia.
    + intros H; discriminate.
    + intros _. split; [exact Hpending|]. split; [exact Hlog|reflexivity].
  - (* synchronous completion *)
    destruct (Z.eqb_spec (reply_error reply) net.ERR_IO_PENDING) as [|Hnp];
      [discriminate|].
    injection Hcompl as Hres' Herr.
    assert (Hl' : l = [AnchorUsedRun k]).
    { destruct Hl as [(_ & _ & k' & Hk' & Hl)|[[H|[H|H]] _]].
      - rewrite Hk in Hk'. injection Hk' as <-. exact Hl.
      - contradiction.
      - rewrite Hres' in H. congruence.
      - rewrite Hk in H. discriminate. }
    subst l. exists w1. split; [exact Hrun|]. split; [reflexivity|].
    rewrite Hlog. split; [|split].
    + rewrite !count_events_app. simpl. lia.
    + intros _. auto.
    + intros [x Hx]; discriminate.
Qed.

(** *** The engine holds the effective configuration *)

Lemma perform_keeps_sync c w w' :
  engine_in_sync w -> perform c w = Ok tt w' -> engine_in_sync w'.
Proof.
  intros Hinv Hrun.
  destruct c as [[proc|]|A|c|params cb reply]; cbn [perform] in Hrun.
  - rewrite InitializeOnIOThread_returns in Hrun. injection Hrun as <-.
    intros d' Hd'. simpl in *. injection Hd' as <-. reflexivity.
  - discriminate.
  - destruct (decide (A = trust_anchors_ (this w))) as [HA|Hne].
    + rewrite SetTrustAnchors_same in Hrun by auto. injection Hrun as <-.
      exact Hinv.
    + destruct (delegate_ (this w)) as [d|] eqn:Hd.
      * rewrite (SetTrustAnchors_bound _ _ _ Hd Hne) in Hrun.
        injection Hrun as <-. intros d' Hd'. simpl in *.
        injection Hd' as <-. reflexivity.
      * rewrite (SetTrustAnchors_unbound _ _ Hd) in Hrun.
        injection Hrun as <-. intros d' Hd'. simpl in *. congruence.
  - destruct (delegate_ (this w)) as [d|] eqn:Hd.
    + rewrite (SetConfig_bound _ _ _ Hd) in Hrun. injection Hrun as <-.
      intros d' Hd'. simpl in *. injection Hd' as <-. reflexivity.
    + rewrite (SetConfig_unbound _ _ Hd) in Hrun. discriminate.
  - destruct (delegate_ (this w)) as [d|] eqn:Hd.
    + destruct (Verify_returns params cb reply w d Hd)
        as (w1 & l & Hv & Hthis & _).
      unfold mbind, mret, M_bind, M_ret, bind, ret in Hrun.
      rewrite Hv in Hrun. injection Hrun as <-.
      intros d' Hd'. rewrite Hthis in *. apply Hinv, Hd'.
    + unfold mbind, M_bind, bind in Hrun.
      rewrite (Verify_unbound _ _ _ _ Hd) in Hrun. discriminate.
Qed.

Lemma perform_all_keeps_sync cs : forall w w',
  engine_in_sync w -> perform_all cs w = Ok tt w' -> engine_in_sync w'.
Proof.
  induction cs as [|c cs IH]; intros w w' Hinv Hrun;
    cbn [perform_all] in Hrun.
  - injection Hrun as <-. exact Hinv.
  - unfold mbind, M_bind, bind in Hrun.
    destruct (perform c w) as [[] w1|f w1] eqn:Hc; [|discriminate].
    apply (IH w1 w'); [|exact Hrun].
    apply (perform_keeps_sync c w w1 Hinv Hc).
Qed.

Lemma fresh_in_sync h : engine_in_sync (fresh h).
Proof. intros d Hd. discriminate. Qed.

(** C10: extending a configuration by no anchors gives the configuration
    back; so in every state a verifier reaches from its construction, if
    the stored anchor set is empty and an engine is bound, the engine's
    configuration is the stored base configuration. *)
Theorem ExtendTrustAnchors_nil (C : Config) :
  ExtendTrustAnchors C [] = C
  /\ forall (h : RepeatingClosure) (cs : list Call) (w : World)
           (d : CertVerifier),
       perform_all cs (fresh h) = Ok tt w ->
       trust_anchors_ (this w) = [] ->
       delegate_ (this w) = Some d ->
       engine_config d = Some (orig_config_ (this w)).
Proof.
  assert (Hnil : forall C', ExtendTrustAnchors C' [] = C').
  { intros C'. unfold ExtendTrustAnchors. simpl. apply Config_eta. }
  split; [apply Hnil|].
  intros h cs w d Hrun Hnone Hd.
  rewrite (perform_all_keeps_sync cs (fresh h) w (fresh_in_sync h) Hrun d Hd).
  rewrite Hnone, Hnil. reflexivity.
Qed.

(** *** Runs: what every step does *)

Lemma perform_cases c w w' :
  perform c w = Ok tt w' ->
  (exists proc,
     c = CallInitialize (Some proc)
     /\ w' = {| this := set_delegate
                          (Some {| engine_proc := proc;
                                   engine_config :=
                                     Some (ExtendTrustAnchors
                                             (orig_config_ (this w))
                                             (trust_anchors_ (this w))) |})
                          (this w);
                log := log w ++ warning_if_unsupported proc
                         ++ [DelegateSetConfig
                               (ExtendTrustAnchors (orig_config_ (this w))
                                  (trust_anchors_ (this w)))] |})
  \/ (exists A,
        c = CallSetTrustAnchors A /\ A = trust_anchors_ (this w) /\ w' = w)
  \/ (exists A,
        c = CallSetTrustAnchors A /\ delegate_ (this w) = None
        /\ w' = {| this := set_trust_anchors A (this w); log := log w |})
  \/ (exists A d,
        c = CallSetTrustAnchors A /\ delegate_ (this w) = Some d
        /\ A <> trust_anchors_ (this w)
        /\ w' = {| this := set_delegate
                             (Some (with_engine_config d
                                      (ExtendTrustAnchors
                                         (orig_config_ (this w)) A)))
                             (set_trust_anchors A (this w));
                   log := log w
                            ++ [DelegateSetConfig
                                  (ExtendTrustAnchors
                                     (orig_config_ (this w)) A)] |})
  \/ (exists c0 d,
        c = CallSetConfig c0 /\ delegate_ (this w) = Some d
        /\ w' = {| this := set_delegate
                             (Some (with_engine_config d
                                      (ExtendTrustAnchors c0
                                         (trust_anchors_ (this w)))))
                             (set_orig_config c0 (this w));
                   log := log w
                            ++ [DelegateSetConfig
                                  (ExtendTrustAnchors c0
                                     (trust_anchors_ (this w)))] |})
  \/ (exists params cb reply d l,
        c = CallVerify params cb reply /\ delegate_ (this w) = Some d
        /\ this w' = this w
        /\ log w' = log w
                      ++ DelegateVerify params (wrapped_callback_of (this w) cb)
                           :: l
        /\ (l = [] \/ exists k, anchor_used_callback_ (this w) = BoundClosure k
                               /\ l = [AnchorUsedRun k])).
Proof.
  intros Hrun.
  destruct c as [[proc|]|A|c0|params cb reply]; cbn [perform] in Hrun.
  - rewrite InitializeOnIOThread_returns in Hrun. injection Hrun as <-.
    left. eauto.
  - discriminate.
  - destruct (decide (A = trust_anchors_ (this w))) as [HA|Hne].
    + rewrite SetTrustAnchors_same in Hrun by auto. injection Hrun as <-.
      right; left. eauto.
    + destruct (delegate_ (this w)) as [d|] eqn:Hd.
      * rewrite (SetTrustAnchors_bound _ _ _ Hd Hne) in Hrun.
        injection Hrun as <-. do 3 right; left. exists A, d. auto.
      * rewrite (SetTrustAnchors_unbound _ _ Hd) in Hrun.
        injection Hrun as <-. do 2 right; left. eauto.
  - destruct (delegate_ (this w)) as [d|] eqn:Hd.
    + rewrite (SetConfig_bound _ _ _ Hd) in Hrun. injection Hrun as <-.
      do 4 right; left. exists c0, d. auto.
    + rewrite (SetConfig_unbound _ _ Hd) in Hrun. discriminate.
  - destruct (delegate_ (this w)) as [d|] eqn:Hd.
    + destruct (Verify_returns params cb reply w d Hd)
        as (w1 & l & Hv & Hthis & Hlog & Hl).
      unfold mbind, mret, M_bind, M_ret, bind, ret in Hrun.
      rewrite Hv in Hrun. injection Hrun as <-.
      do 5 right. exists params, cb, reply, d, l.
      repeat split; auto.
      destruct Hl as [(_ & _ & k & Hk & ->)|[_ ->]]; eauto.
    + unfold mbind, M_bind, bind in Hrun.
      rewrite (Verify_unbound _ _ _ _ Hd) in Hrun. discriminate.
Qed.

Lemma step_complete_cases callback res err w w' :
  Run callback res err w = Ok tt w' ->
  this w' = this w
  /\ exists l,
       log w' = log w ++ l
                  ++ [CompletionRun (bound_completion_callback callback) err]
       /\ (l = [] \/ exists k, bound_anchor_used_callback callback = BoundClosure k
                              /\ l = [AnchorUsedRun k]).
Proof.
  intros Hrun. destruct callback as [h cb].
  destruct (Run_returns h cb res err w) as (w2 & l & Hr & Hthis & Hlog & Hl).
  rewrite Hr in Hrun. injection Hrun as <-. split; [exact Hthis|].
  exists l. split; [exact Hlog|]. simpl.
  destruct Hl as [(_ & _ & k & Hk & ->)|[_ ->]]; eauto.
Qed.

Lemma step_keeps_sync w w' : step w w' -> engine_in_sync w -> engine_in_sync w'.
Proof.
  intros [c w0 w1 Hc|params callback res err w0 w1 _ Hr] Hinv.
  - exact (perform_keeps_sync c w0 w1 Hinv Hc).
  - destruct (step_complete_cases _ _ _ _ _ Hr) as [Hthis _].
    intros d Hd. rewrite Hthis in *. apply Hinv, Hd.
Qed.

(** X1: In every state a verifier reaches, through calls and through the
    engine's completions, a bound engine holds the stored base
    configuration with the stored anchors in front of its anchors: anchors
    set earlier and base configurations set earlier leave no trace. *)
Theorem reachable_engine_in_sync (h : RepeatingClosure) (w : World)
    (d : CertVerifier) :
  reachable h w ->
  delegate_ (this w) = Some d ->
  exists c,
    engine_config d = Some c
    /\ c = ExtendTrustAnchors (orig_config_ (this w)) (trust_anchors_ (this w))
    /\ additional_trust_anchors c
       = trust_anchors_ (this w)
           ++ additional_trust_anchors (orig_config_ (this w))
    /\ config_rest c = config_rest (orig_config_ (this w)).
Proof.
  intros Hreach Hd.
  assert (Hsync : engine_in_sync w).
  { clear Hd. revert w Hreach. apply rtc_ind_r.
    - apply fresh_in_sync.
    - intros y z _ Hstep Hy. exact (step_keeps_sync y z Hstep Hy). }
  eexists. split; [apply Hsync, Hd|]. repeat split.
Qed.

Lemma perform_all_steps cs : forall w w',
  perform_all cs w = Ok tt w' -> rtc step w w'.
Proof.
  induction cs as [|c cs IH]; intros w w' Hrun; cbn [perform_all] in Hrun.
  - injection Hrun as <-. apply rtc_refl.
  - unfold mbind, M_bind, bind in Hrun.
    destruct (perform c w) as [[] w1|f w1] eqn:Hc; [|discriminate].
    eapply rtc_l; [exact (step_call c w w1 Hc)|exact (IH w1 w' Hrun)].
Qed.

(** *** The closure *)

Definition closure_kept (h : RepeatingClosure) (w : World) : Prop :=
  anchor_used_callback_ (this w) = h /\ Forall (event_closure_is h) (log w).

Lemma step_keeps_closure h w w' :
  step w w' -> closure_kept h w -> closure_kept h w'.
Proof.
  intros [c w0 w1 Hc|params callback res err w0 w1 Hin Hr] [Hcb Hlog].
  - destruct (perform_cases c w0 w1 Hc)
      as [(proc & _ & ->)|[(A & _ & _ & ->)|[(A & _ & _ & ->)
         |[(A & d & _ & _ & _ & ->)|[(c0 & d & _ & _ & ->)
         |(params & cb & reply & d & l & _ & _ & Hthis & Hl & Hcases)]]]]];
      unfold closure_kept; simpl.
    + split; [exact Hcb|]. rewrite !Forall_app. split; [exact Hlog|].
      split; [|repeat constructor].
      unfold warning_if_unsupported.
      destruct (net.SupportsAdditionalTrustAnchors proc); repeat constructor.
    + auto.
    + auto.
    + split; [exact Hcb|]. rewrite Forall_app. split; [exact Hlog|].
      repeat constructor.
    + split; [exact Hcb|]. rewrite Forall_app. split; [exact Hlog|].
      repeat constructor.
    + rewrite Hthis, Hl. split; [exact Hcb|].
      rewrite Forall_app. split; [exact Hlog|].
      constructor; [exact Hcb|].
      destruct Hcases as [->|(k & Hk & ->)]; [constructor|].
      constructor; [|constructor]. simpl. congruence.
  - destruct (step_complete_cases _ _ _ _ _ Hr) as (Hthis & l & Hl & Hcases).
    unfold closure_kept. rewrite Hthis, Hl. split; [exact Hcb|].
    rewrite !Forall_app. split; [exact Hlog|].
    split; [|repeat constructor].
    assert (Hhanded : bound_anchor_used_callback callback = h).
    { rewrite Forall_forall in Hlog. exact (Hlog _ Hin). }
    destruct Hcases as [->|(k & Hk & ->)]; [constructor|].
    constructor; [|constructor]. simpl. congruence.
Qed.

Lemma null_closure_never_run (l : list Event) :
  Forall (event_closure_is NullClosure) l ->
  count_events is_AnchorUsedRun l = O.
Proof.
  induction 1 as [|e l He _ IH]; [reflexivity|].
  destruct e; simpl in *; try exact IH. discriminate.
Qed.

(** X2: No member function assigns [anchor_used_callback_]: in every state a
    verifier reaches it is the closure given to the constructor, every
    callback handed to the engine is bound to that closure, and every
    closure run in the log is a run of it.  A verifier constructed with a
    null closure never runs a closure. *)
Theorem closure_is_the_constructors (h : RepeatingClosure) (w : World) :
  reachable h w ->
  anchor_used_callback_ (this w) = h
  /\ (forall params callback,
        DelegateVerify params callback ∈ log w ->
        bound_anchor_used_callback callback = h)
  /\ (forall k, AnchorUsedRun k ∈ log w -> h = BoundClosure k)
  /\ (h = NullClosure -> count_events is_AnchorUsedRun (log w) = O).
Proof.
  intros Hreach.
  assert (Hkept : closure_kept h w).
  { revert w Hreach. apply rtc_ind_r.
    - split; [reflexivity|constructor].
    - intros y z _ Hstep Hy. exact (step_keeps_closure h y z Hstep Hy). }
  destruct Hkept as [Hcb Hlog]. split; [exact Hcb|].
  pose proof Hlog as Hall. rewrite Forall_forall in Hall.
  split; [|split].
  - intros params callback Hin. exact (Hall _ Hin).
  - intros k Hin. exact (Hall _ Hin).
  - intros ->. apply null_closure_never_run, Hlog.
Qed.

(** *** Before and after the engine is bound *)

Definition inert (h : RepeatingClosure) (w : World) : Prop :=
  delegate_ (this w) = None ->
  w = {| this := set_trust_anchors (trust_anchors_ (this w)) (Construct h);
         log := [] |}.

Lemma step_keeps_inert h w w' : step w w' -> inert h w -> inert h w'.
Proof.
  intros [c w0 w1 Hc|params callback res err w0 w1 Hin Hr] Hinv.
  - destruct (perform_cases c w0 w1 Hc)
      as [(proc & _ & ->)|[(A & _ & _ & ->)|[(A & _ & Hd & ->)
         |[(A & d & _ & _ & _ & ->)|[(c0 & d & _ & _ & ->)
         |(params & cb & reply & d & l & _ & Hd & Hthis & _)]]]]];
      unfold inert; simpl; try discriminate.
    + exact Hinv.
    + intros _. specialize (Hinv Hd).
      pose proof (f_equal this Hinv) as Ht.
      pose proof (f_equal log Hinv) as Hl. simpl in Ht, Hl.
      rewrite Hl, Ht. reflexivity.
    + rewrite Hthis, Hd. discriminate.
  - destruct (step_complete_cases _ _ _ _ _ Hr) as (Hthis & _).
    unfold inert. rewrite Hthis. intros Hd. specialize (Hinv Hd).
    pose proof (f_equal log Hinv) as Hl. simpl in Hl.
    rewrite Hl in Hin. apply elem_of_nil in Hin. contradiction.
Qed.

(** X3: As long as no engine is bound a verifier has done nothing: its log is
    empty and it differs from the freshly constructed one in the stored
    anchors at most. *)
Theorem inert_before_Initialize (h : RepeatingClosure) (w : World) :
  reachable h w ->
  delegate_ (this w) = None ->
  log w = []
  /\ orig_config_ (this w) = orig_config_ (Construct h)
  /\ this w = set_trust_anchors (trust_anchors_ (this w)) (Construct h).
Proof.
  intros Hreach Hd.
  assert (Hinert : inert h w).
  { clear Hd. revert w Hreach. apply rtc_ind_r.
    - intros _. reflexivity.
    - intros y z _ Hstep Hy. exact (step_keeps_inert h y z Hstep Hy). }
  specialize (Hinert Hd).
  pose proof (f_equal this Hinert) as Ht.
  pose proof (f_equal log Hinert) as Hl. simpl in Ht, Hl.
  split; [exact Hl|]. split; [rewrite Ht; reflexivity|exact Ht].
Qed.

Lemma step_keeps_bound w w' :
  step w w' ->
  has_object (delegate_ (this w)) = true ->
  has_object (delegate_ (this w')) = true.
Proof.
  intros [c w0 w1 Hc|params callback res err w0 w1 Hin Hr] Hb.
  - destruct (perform_cases c w0 w1 Hc)
      as [(proc & _ & ->)|[(A & _ & _ & ->)|[(A & _ & Hd & ->)
         |[(A & d & _ & _ & _ & ->)|[(c0 & d & _ & _ & ->)
         |(params & cb & reply & d & l & _ & Hd & Hthis & _)]]]]];
      simpl; auto.
    rewrite Hthis. exact Hb.
  - destruct (step_complete_cases _ _ _ _ _ Hr) as (Hthis & _).
    rewrite Hthis. exact Hb.
Qed.

(** X4: No member function resets [delegate_]: once an engine is bound, one
    stays bound through every later call and completion. *)
Theorem binding_is_permanent (w w' : World) (d : CertVerifier) :
  rtc step w w' ->
  delegate_ (this w) = Some d ->
  exists d', delegate_ (this w') = Some d'.
Proof.
  intros Hrun Hd.
  assert (Hb : has_object (delegate_ (this w')) = true).
  { assert (Hb0 : has_object (delegate_ (this w)) = true)
      by (rewrite Hd; reflexivity).
    clear Hd. induction Hrun as [w|w w1 w' Hstep _ IH].
    - exact Hb0.
    - apply IH. exact (step_keeps_bound w w1 Hstep Hb0). }
  destruct (delegate_ (this w')) as [d'|]; [eauto|discriminate].
Qed.

(** *** Further properties of the member functions *)

(** X5: [Verify], returning or not, and a completion callback it built assign
    no member and never reconfigure the engine; [Verify] runs the closure
    at most once itself. *)
Theorem Verify_leaves_verifier_unchanged (params : RequestParams)
    (cb : CompletionOnceCallback) (reply : EngineReply) (w : World) :
  (let w' := world_of (Verify params cb reply w) in
   this w' = this w
   /\ count_events is_DelegateSetConfig (log w')
      = count_events is_DelegateSetConfig (log w)
   /\ (count_events is_AnchorUsedRun (log w')
       <= S (count_events is_AnchorUsedRun (log w)))%nat)
  /\ (forall res err,
        let w' := world_of (Run (wrapped_callback_of (this w) cb) res err w) in
        this w' = this w
        /\ count_events is_DelegateSetConfig (log w')
           = count_events is_DelegateSetConfig (log w)).
Proof.
  split.
  - destruct (delegate_ (this w)) as [d|] eqn:Hd.
    + destruct (Verify_returns params cb reply w d Hd)
        as (w1 & l & Hv & Hthis & Hlog & Hl).
      rewrite Hv. simpl. split; [exact Hthis|]. rewrite Hlog.
      rewrite !count_events_app.
      destruct Hl as [(_ & _ & k & _ & ->)|[_ ->]]; simpl; lia.
    + rewrite (Verify_unbound _ _ _ _ Hd). simpl. auto.
  - intros res err.
    destruct (Run_returns (anchor_used_callback_ (this w)) cb res err w)
      as (w2 & l & Hr & Hthis & Hlog & Hl).
    unfold wrapped_callback_of. rewrite Hr. simpl. split; [exact Hthis|].
    rewrite Hlog, !count_events_app.
    destruct Hl as [(_ & _ & k & _ & ->)|[_ ->]]; simpl; lia.
Qed.

(** X6: The verifier keeps no record of the requests it has signalled: the
    check runs once when [Verify] returns and once when the callback runs.
    With an engine that returns [net::OK] and nevertheless runs the
    callback afterwards, both with a flagged result, the closure runs
    twice for the one request. *)
Theorem anchor_use_signalled_per_check (params : RequestParams)
    (cb : CompletionOnceCallback) (reply : EngineReply) (w : World)
    (d : CertVerifier) (k : N) (res : CertVerifyResult) :
  delegate_ (this w) = Some d ->
  anchor_used_callback_ (this w) = BoundClosure k ->
  reply_error reply = net.OK ->
  is_issued_by_additional_trust_anchor (reply_result reply) = true ->
  reply_later reply = Some (res, net.OK) ->
  is_issued_by_additional_trust_anchor res = true ->
  let wrapped := wrapped_callback_of (this w) cb in
  exists w1 w2,
    Verify params cb reply w = Ok net.OK w1
    /\ engine_completion wrapped reply w1 = Ok tt w2
    /\ log w2 = log w ++ [DelegateVerify params wrapped; AnchorUsedRun k;
                          AnchorUsedRun k; CompletionRun cb net.OK].
Proof.
  intros Hd Hk He Hflag Hlater Hres wrapped.
  destruct (Verify_returns params cb reply w d Hd)
    as (w1 & l & Hv & Hthis & Hlog & Hl).
  assert (Hl' : l = [AnchorUsedRun k]).
  { destruct Hl as [(_ & _ & k' & Hk' & Hl)|[[H|[H|H]] _]].
    - rewrite Hk in Hk'. injection Hk' as <-. exact Hl.
    - contradiction.
    - congruence.
    - rewrite Hk in H. discriminate. }
  subst l. rewrite He in Hv. unfold engine_completion. rewrite Hlater.
  assert (Hcb : Run wrapped res net.OK w1
                = Ok tt {| this := this w1;
                           log := log w1 ++ [AnchorUsedRun k;
                                             CompletionRun cb net.OK] |}).
  { subst wrapped. unfold Run, wrapped_callback_of; simpl. rewrite Hk.
    unfold CompleteAndSignalAnchorUse. run_M.
    rewrite (MaybeSignalAnchorUse_fires res k w1 Hres). simpl.
    rewrite <- app_assoc. reflexivity. }
  eexists _, _. split; [exact Hv|]. split; [exact Hcb|].
  simpl. rewrite Hlog, <- app_assoc. reflexivity.
Qed.

(** X7: [SetTrustAnchors] faults in no state, bound or not; it returns with
    its argument stored and with the base configuration, the closure and
    the presence of an engine as they were. *)
Theorem SetTrustAnchors_never_faults (A : net.CertificateList) (w : World) :
  exists w',
    SetTrustAnchors A w = Ok tt w'
    /\ trust_anchors_ (this w') = A
    /\ orig_config_ (this w') = orig_config_ (this w)
    /\ anchor_used_callback_ (this w') = anchor_used_callback_ (this w)
    /\ has_object (delegate_ (this w')) = has_object (delegate_ (this w)).
Proof.
  destruct (decide (A = trust_anchors_ (this w))) as [HA|Hne].
  - exists w. rewrite SetTrustAnchors_same by auto. repeat split; auto.
  - destruct (delegate_ (this w)) as [d|] eqn:Hd.
    + eexists. split; [apply (SetTrustAnchors_bound _ _ _ Hd Hne)|].
      simpl. repeat split.
    + eexists. split; [apply (SetTrustAnchors_unbound _ _ Hd)|].
      simpl. rewrite Hd. repeat split.
Qed.

(** X8: On a bound verifier [SetTrustAnchors] with a list that differs from the
    stored one, be it in length, in a certificate or in the order, replaces
    the stored list and gives the engine, in one call, the base
    configuration with the new list in front: the former anchors are not
    kept. *)
Theorem SetTrustAnchors_replaces (A : net.CertificateList) (w : World)
    (d : CertVerifier) :
  delegate_ (this w) = Some d ->
  A <> trust_anchors_ (this w) ->
  exists w' c,
    SetTrustAnchors A w = Ok tt w'
    /\ c = ExtendTrustAnchors (orig_config_ (this w)) A
    /\ trust_anchors_ (this w') = A
    /\ orig_config_ (this w') = orig_config_ (this w)
    /\ delegate_ (this w') = Some (with_engine_config d c)
    /\ log w' = log w ++ [DelegateSetConfig c]
    /\ additional_trust_anchors c
       = A ++ additional_trust_anchors (orig_config_ (this w)).
Proof.
  intros Hd Hne. eexists _, _.
  split; [apply (SetTrustAnchors_bound _ _ _ Hd Hne)|].
  simpl. repeat split.
Qed.

(** X10: [SetConfig] has no guard for an unchanged argument: called twice with
    the same configuration on a bound verifier it reconfigures the engine
    twice, the second call changing nothing in the verifier. *)
Theorem SetConfig_reconfigures_every_time (c : Config) (w : World)
    (d : CertVerifier) :
  delegate_ (this w) = Some d ->
  exists w1 w2,
    SetConfig c w = Ok tt w1
    /\ SetConfig c w1 = Ok tt w2
    /\ this w2 = this w1
    /\ log w2
       = log w
           ++ [DelegateSetConfig (ExtendTrustAnchors c (trust_anchors_ (this w)));
               DelegateSetConfig (ExtendTrustAnchors c (trust_anchors_ (this w)))].
Proof.
  intros Hd. eexists _, _.
  split; [apply (SetConfig_bound _ _ _ Hd)|].
  split; [apply SetConfig_bound; reflexivity|].
  simpl. split; [reflexivity|]. rewrite <- app_assoc. reflexivity.
Qed.

(** X11: On a bound verifier [SetConfig] and [SetTrustAnchors] can be called in
    either order: both orders return and leave the same verifier, whose
    engine holds the new base configuration with the new anchors in
    front. *)
Theorem SetConfig_SetTrustAnchors_commute (c : Config)
    (A : net.CertificateList) (w : World) (d : CertVerifier) :
  delegate_ (this w) = Some d ->
  exists w1 w2,
    (SetConfig c ;; SetTrustAnchors A) w = Ok tt w1
    /\ (SetTrustAnchors A ;; SetConfig c) w = Ok tt w2
    /\ this w1 = this w2
    /\ orig_config_ (this w1) = c
    /\ trust_anchors_ (this w1) = A
    /\ delegate_ (this w1)
       = Some (with_engine_config d (ExtendTrustAnchors c A)).
Proof.
  intros Hd. unfold mbind, M_bind, bind.
  rewrite (SetConfig_bound _ _ _ Hd).
  destruct (decide (A = trust_anchors_ (this w))) as [HA|Hne].
  - rewrite SetTrustAnchors_same by (simpl; auto).
    rewrite (SetTrustAnchors_same A w) by auto.
    rewrite (SetConfig_bound _ _ _ Hd).
    eexists _, _. split; [reflexivity|]. split; [reflexivity|].
    simpl. subst A. repeat split.
  - erewrite (SetTrustAnchors_bound A _ _); [|reflexivity|exact Hne].
    rewrite (SetTrustAnchors_bound _ _ _ Hd Hne).
    erewrite SetConfig_bound; [|reflexivity].
    eexists _, _. split; [reflexivity|]. split; [reflexivity|].
    simpl. repeat split.
Qed.

(** X12: Extending twice is extending by the concatenation, later anchors
    first; over one base configuration different anchor lists give
    different configurations; and only the empty list gives the base
    configuration back. *)
Theorem ExtendTrustAnchors_algebra (C : Config) (A B : net.CertificateList) :
  ExtendTrustAnchors (ExtendTrustAnchors C A) B = ExtendTrustAnchors C (B ++ A)
  /\ (ExtendTrustAnchors C A = ExtendTrustAnchors C B -> A = B)
  /\ (ExtendTrustAnchors C A = C -> A = []).
Proof.
  unfold ExtendTrustAnchors, net.CertificateList; simpl.
  split; [rewrite app_assoc; reflexivity|]. split.
  - intros H. injection H as H. exact (app_inv_tail _ _ _ H).
  - intros H. apply (f_equal additional_trust_anchors) in H. simpl in H.
    apply (f_equal length) in H. rewrite length_app in H.
    apply nil_length_inv. lia.
Qed.

(** *** The procedure factory *)

Lemma has_object_is_Some {A} (o : option A) : is_Some o -> has_object o = true.
Proof. intros [x ->]. reflexivity. Qed.

(** X13: When the creators return procedures, as they do for every argument
    here, the factory calls exactly one of them, with the fetcher and the
    CRL set it was given, and returns what it made: the Chrome root store
    one where that store is the only one or is optional and switched on,
    otherwise the builtin one on Fuchsia, Linux and ChromeOS and the
    system one elsewhere. *)
Theorem CreateCertVerifyProc_creates_once (flags : BuildFlags)
    (kChromeRootStoreUsed : bool) (cert_net_fetcher : option CertNetFetcher)
    (impl_params : ImplParams) :
  (forall c, is_Some (create c)) ->
  let c :=
    if (CHROME_ROOT_STORE_OPTIONAL flags && kChromeRootStoreUsed)
       || CHROME_ROOT_STORE_ONLY flags
    then BuiltinWithChromeRootStore cert_net_fetcher (crl_set impl_params)
           (root_store_data impl_params)
    else if IS_FUCHSIA flags || IS_LINUX flags || IS_CHROMEOS flags
    then BuiltinVerifyProc cert_net_fetcher (crl_set impl_params)
    else SystemVerifyProc cert_net_fetcher (crl_set impl_params) in
  CreateCertVerifyProc flags kChromeRootStoreUsed cert_net_fetcher impl_params
    = (create c, [c])
  /\ is_Some (create c).
Proof.
  intros Hcreate c. split; [|apply Hcreate]. subst c.
  unfold CreateCertVerifyProc.
  destruct (CHROME_ROOT_STORE_OPTIONAL flags), kChromeRootStoreUsed; simpl;
    try reflexivity.
  rewrite (has_object_is_Some _ (Hcreate _)). reflexivity.
Qed.

(** X14: Whatever the creators return, the factory returns what the last
    creator it called returned, and it calls one creator or two; so it
    returns a null procedure only when that last creator did. *)
Theorem CreateCertVerifyProc_returns_last_creation (flags : BuildFlags)
    (kChromeRootStoreUsed : bool) (cert_net_fetcher : option CertNetFetcher)
    (impl_params : ImplParams) :
  let r := CreateCertVerifyProc flags kChromeRootStoreUsed cert_net_fetcher
             impl_params in
  exists c,
    last (snd r) = Some c
    /\ fst r = create c
    /\ (1 <= length (snd r) <= 2)%nat.
Proof.
  unfold CreateCertVerifyProc.
  destruct (CHROME_ROOT_STORE_OPTIONAL flags), kChromeRootStoreUsed; simpl;
    try (eexists; split; [reflexivity|]; split; [reflexivity|lia]).
  destruct (create (BuiltinWithChromeRootStore _ _ _)) as [proc|] eqn:Hc;
    simpl.
  - eexists. split; [reflexivity|]. split; [symmetry; exact Hc|lia].
  - eexists. split; [reflexivity|]. split; [reflexivity|lia].
Qed.

(** X15: In a build with [CHROME_ROOT_STORE_ONLY] the factory calls no creator
    but the Chrome root store one, whatever the platform flags, the
    feature and the creators' answers. *)
Theorem CreateCertVerifyProc_root_store_only (flags : BuildFlags)
    (kChromeRootStoreUsed : bool) (cert_net_fetcher : option CertNetFetcher)
    (impl_params : ImplParams) :
  CHROME_ROOT_STORE_ONLY flags = true ->
  Forall (fun c => is_chrome_root_store c = true)
    (snd (CreateCertVerifyProc flags kChromeRootStoreUsed cert_net_fetcher
            impl_params)).
Proof.
  intros Honly. unfold CreateCertVerifyProc. rewrite Honly.
  destruct (CHROME_ROOT_STORE_OPTIONAL flags), kChromeRootStoreUsed; simpl;
    try (repeat constructor).
  destruct (create (BuiltinWithChromeRootStore _ _ _)); simpl;
    repeat constructor.
Qed.

(** X16: In a build without [CHROME_ROOT_STORE_OPTIONAL] the feature is not
    consulted: the factory does the same for either answer, and calls one
    creator, with the fetcher it was given. *)
Theorem CreateCertVerifyProc_feature_ignored (flags : BuildFlags)
    (cert_net_fetcher : option CertNetFetcher) (impl_params : ImplParams) :
  CHROME_ROOT_STORE_OPTIONAL flags = false ->
  CreateCertVerifyProc flags true cert_net_fetcher impl_params
    = CreateCertVerifyProc flags false cert_net_fetcher impl_params
  /\ exists c,
       snd (CreateCertVerifyProc flags true cert_net_fetcher impl_params) = [c]
       /\ (c = BuiltinWithChromeRootStore cert_net_fetcher
                 (crl_set impl_params) (root_store_data impl_params)
           \/ c = BuiltinVerifyProc cert_net_fetcher (crl_set impl_params)
           \/ c = SystemVerifyProc cert_net_fetcher (crl_set impl_params)).
Proof.
  intros Hopt. unfold CreateCertVerifyProc. rewrite Hopt. simpl.
  split; [reflexivity|]. eexists. split; [reflexivity|].
  destruct (CHROME_ROOT_STORE_ONLY flags); [auto|].
  destruct (IS_FUCHSIA flags || IS_LINUX flags || IS_CHROMEOS flags); auto.
Qed.

End Verifier.


(** ** The theorems at concrete inputs

    The other fields of a configuration are taken to be one flag, the other
    fields of a result to be nothing, and a request to be a number. *)

Lemma ExtendTrustAnchors_prepends_witness :
  additional_trust_anchors bool
    (ExtendTrustAnchors bool
       {| additional_trust_anchors := [3%N; 4%N]; config_rest := true |}
       [1%N; 2%N])
  = [1%N; 2%N; 3%N; 4%N].
Proof.
  exact (proj1 (ExtendTrustAnchors_prepends bool
                  {| additional_trust_anchors := [3%N; 4%N];
                     config_rest := true |} [1%N; 2%N])).
Defined.

Lemma SetTrustAnchors_idempotent_witness :
  trust_anchors_ bool
    (this bool N
       {| this := set_trust_anchors bool [7%N; 9%N]
                    (Construct bool false (BoundClosure 1));
          log := [] |}) = [7%N; 9%N]
  /\ SetTrustAnchors bool N [7%N; 9%N]
       {| this := set_trust_anchors bool [7%N; 9%N]
                    (Construct bool false (BoundClosure 1));
          log := [] |}
     = Ok bool N unit tt
         {| this := set_trust_anchors bool [7%N; 9%N]
                      (Construct bool false (BoundClosure 1));
            log := [] |}.
Proof.
  split; [reflexivity|].
  apply (proj1 (SetTrustAnchors_idempotent bool N [7%N; 9%N] _)).
  reflexivity.
Defined.

Local Abbreviation sample_proc :=
  {| net.proc_address := 64%N; net.SupportsAdditionalTrustAnchors := false |}.

Local Abbreviation sample_config :=
  {| additional_trust_anchors := [3%N; 4%N]; config_rest := true |}.

(** A verifier with closure 5 and anchors [7; 9], as
    [InitializeOnIOThread] leaves it. *)
Local Abbreviation sample_bound :=
  {| this :=
       {| anchor_used_callback_ := BoundClosure 5;
          orig_config_ := sample_config;
          trust_anchors_ := [7%N; 9%N];
          delegate_ :=
            Some {| engine_proc := sample_proc;
                    engine_config :=
                      Some (ExtendTrustAnchors bool sample_config [7%N; 9%N]) |} |};
     log := [LogWarning bool N;
             DelegateSetConfig bool N
               (ExtendTrustAnchors bool sample_config [7%N; 9%N])] |}.

Local Abbreviation flagged := {| is_issued_by_additional_trust_anchor := true;
                             result_rest := tt |}.
Local Abbreviation unflagged := {| is_issued_by_additional_trust_anchor := false;
                               result_rest := tt |}.

(** An engine that answers at once, and one that answers later. *)
Local Abbreviation reply_now :=
  {| reply_error := net.OK; reply_result := flagged; reply_later := None |}.
Local Abbreviation reply_pending :=
  {| reply_error := net.ERR_IO_PENDING; reply_result := unflagged;
     reply_later := Some (flagged, net.OK) |}.

Local Abbreviation reply_failed :=
  {| reply_error := -202; reply_result := flagged; reply_later := None |}.


Lemma anchor_use_signalled_once_witness :
  (exists w1 w2,
     Verify bool unit N true 11%N 2%N reply_now sample_bound
       = Ok bool N Z net.OK w1
     /\ w2 = w1
     /\ log bool N w1
        = log bool N sample_bound
            ++ [DelegateVerify bool N 11%N
                  (wrapped_callback_of bool (this bool N sample_bound) 2%N);
                AnchorUsedRun bool N 5])
  /\ (exists w1 w2,
        Verify bool unit N true 11%N 2%N reply_pending sample_bound
          = Ok bool N Z net.ERR_IO_PENDING w1
        /\ engine_completion bool unit N
             (wrapped_callback_of bool (this bool N sample_bound) 2%N)
             reply_pending w1 = Ok bool N unit tt w2
        /\ count_events bool N (is_AnchorUsedRun bool N) (log bool N w2)
           = S (count_events bool N (is_AnchorUsedRun bool N)
                  (log bool N sample_bound))).
Proof.
  split.
  - destruct (anchor_use_signalled_once bool unit N true 11%N 2%N reply_now
                sample_bound _ 5%N flagged eq_refl eq_refl)
      as (w1 & w2 & Hrun & _ & _ & Hsync & _).
    + intros [x Hx]. discriminate Hx.
    + reflexivity.
    + reflexivity.
    + destruct (Hsync eq_refl) as (_ & Hlog & Hw).
      exists w1, w2. split; [exact Hrun|]. split; [exact Hw|exact Hlog].
  - destruct (anchor_use_signalled_once bool unit N true 11%N 2%N
                reply_pending sample_bound _ 5%N flagged eq_refl eq_refl)
      as (w1 & w2 & Hrun & Hlater & Hcount & _).
    + intros _. reflexivity.
    + reflexivity.
    + reflexivity.
    + exists w1, w2. split; [exact Hrun|]. split; [exact Hlater|exact Hcount].
Defined.

Lemma Verify_passes_status_through_witness :
  exists w1 l,
    Verify bool unit N false 11%N 2%N
      {| reply_error := -202; reply_result := unflagged; reply_later := None |}
      sample_bound
    = Ok bool N Z (-202) w1
    /\ log bool N w1
       = log bool N sample_bound
           ++ DelegateVerify bool N 11%N
                (wrapped_callback_of bool (this bool N sample_bound) 2%N) :: l.
Proof.
  exact (proj1 (Verify_passes_status_through bool unit N false 11%N 2%N
                  {| reply_error := -202; reply_result := unflagged;
                     reply_later := None |}
                  sample_bound _ eq_refl)).
Defined.

Lemma SetTrustAnchors_then_Initialize_witness :
  exists w1 w2,
    SetTrustAnchors bool N [7%N] (fresh bool false N NullClosure)
      = Ok bool N unit tt w1
    /\ log bool N w1 = []
    /\ InitializeOnIOThread bool N (Some sample_proc) w1 = Ok bool N unit tt w2
    /\ delegate_ bool (this bool N w2)
       = Some {| engine_proc := sample_proc;
                 engine_config :=
                   Some {| additional_trust_anchors := [7%N];
                           config_rest := false |} |}.
Proof.
  destruct (SetTrustAnchors_then_Initialize bool N [7%N] sample_proc
              (fresh bool false N NullClosure) eq_refl)
    as (w1 & w2 & Hset & _ & _ & _ & Hlog & Hinit & Hd & _).
  exists w1, w2. auto.
Defined.

Lemma Verify_requires_Initialize_witness :
  Verify bool unit N true 11%N 2%N reply_now (fresh bool false N NullClosure)
    = Crash bool N Z DcheckFailure (fresh bool false N NullClosure)
  /\ exists w',
       Verify bool unit N true 11%N 2%N reply_now sample_bound
         = Ok bool N Z net.OK w'.
Proof.
  split.
  - apply (proj1 (Verify_requires_Initialize bool unit N true 11%N 2%N
                    reply_now (fresh bool false N NullClosure))).
    reflexivity.
  - apply (proj2 (Verify_requires_Initialize bool unit N true 11%N 2%N
                    reply_now sample_bound) sample_proc
             {| this := set_delegate bool None (this bool N sample_bound);
                log := [] |}).
    reflexivity.
Defined.

Local Abbreviation sample_calls :=
  [CallSetTrustAnchors bool unit N [7%N];
   CallInitialize bool unit N (Some sample_proc);
   CallSetConfig bool unit N sample_config;
   CallVerify bool unit N 11%N 2%N reply_now;
   CallSetTrustAnchors bool unit N []].

Lemma ExtendTrustAnchors_nil_witness :
  exists w d,
    perform_all bool unit N true
      sample_calls
      (fresh bool false N (BoundClosure 5)) = Ok bool N unit tt w
    /\ trust_anchors_ bool (this bool N w) = []
    /\ delegate_ bool (this bool N w) = Some d
    /\ orig_config_ bool (this bool N w) = sample_config
    /\ engine_config bool d = Some (orig_config_ bool (this bool N w)).
Proof.
  eexists _, _. split; [vm_compute; reflexivity|].
  split; [reflexivity|]. split; [reflexivity|]. split; [reflexivity|].
  eapply (proj2 (ExtendTrustAnchors_nil bool false unit N true sample_config)
            (BoundClosure 5) sample_calls).
  - vm_compute. reflexivity.
  - reflexivity.
  - reflexivity.
Defined.

(** A run from construction: binding, new anchors, a new base
    configuration, and a request that the engine leaves pending; and the
    same run with the request completed by the engine. *)
Local Abbreviation sample_calls_pending :=
  [CallInitialize bool unit N (Some sample_proc);
   CallSetTrustAnchors bool unit N [7%N; 9%N];
   CallSetConfig bool unit N sample_config;
   CallVerify bool unit N 11%N 2%N reply_pending].

Local Abbreviation sample_run :=
  (world_of bool N
     (perform_all bool unit N true sample_calls_pending
        (fresh bool false N (BoundClosure 5)))).

Local Abbreviation sample_done :=
  (world_of bool N
     (Run bool unit N (wrapped_callback_of bool (this bool N sample_run) 2%N)
        flagged net.OK sample_run)).

Lemma sample_run_reachable :
  reachable bool false unit N true (BoundClosure 5) sample_run.
Proof.
  apply perform_all_steps with (cs := sample_calls_pending).
  vm_compute. reflexivity.
Defined.

Lemma sample_done_reachable :
  reachable bool false unit N true (BoundClosure 5) sample_done.
Proof.
  eapply rtc_r; [exact sample_run_reachable|].
  eapply (step_complete bool unit N true 11%N
            (wrapped_callback_of bool (this bool N sample_run) 2%N)
            flagged net.OK).
  - apply list_elem_of_In. vm_compute. auto 10.
  - vm_compute. reflexivity.
Defined.

Lemma reachable_engine_in_sync_witness :
  exists d c,
    delegate_ bool (this bool N sample_done) = Some d
    /\ engine_config bool d = Some c
    /\ additional_trust_anchors bool c = [7%N; 9%N; 3%N; 4%N].
Proof.
  destruct (reachable_engine_in_sync bool false unit N true (BoundClosure 5)
              sample_done _ sample_done_reachable eq_refl)
    as (c & Hc & _ & Hanchors & _).
  eexists _, c. split; [reflexivity|]. split; [exact Hc|exact Hanchors].
Defined.

Lemma closure_is_the_constructors_witness :
  anchor_used_callback_ bool (this bool N sample_done) = BoundClosure 5
  /\ forall k, AnchorUsedRun bool N k ∈ log bool N sample_done ->
               BoundClosure 5 = BoundClosure k.
Proof.
  destruct (closure_is_the_constructors bool false unit N true
              (BoundClosure 5) sample_done sample_done_reachable)
    as (Hcb & _ & Hruns & _).
  split; [exact Hcb|exact Hruns].
Defined.

Local Abbreviation sample_calls_unbound :=
  [CallSetTrustAnchors bool unit N [7%N];
   CallSetTrustAnchors bool unit N [8%N; 9%N]].

Local Abbreviation sample_unbound :=
  (world_of bool N
     (perform_all bool unit N true sample_calls_unbound
        (fresh bool false N (BoundClosure 5)))).

Lemma inert_before_Initialize_witness :
  delegate_ bool (this bool N sample_unbound) = None
  /\ log bool N sample_unbound = []
  /\ this bool N sample_unbound
     = set_trust_anchors bool [8%N; 9%N] (Construct bool false (BoundClosure 5)).
Proof.
  split; [reflexivity|].
  destruct (inert_before_Initialize bool false unit N true (BoundClosure 5)
              sample_unbound) as (Hlog & _ & Hthis).
  - apply perform_all_steps with (cs := sample_calls_unbound).
    vm_compute. reflexivity.
  - reflexivity.
  - split; [exact Hlog|exact Hthis].
Defined.

Local Abbreviation sample_calls_bound :=
  [CallSetTrustAnchors bool unit N [];
   CallVerify bool unit N 11%N 2%N reply_now].

Lemma binding_is_permanent_witness :
  exists d',
    delegate_ bool
      (this bool N
         (world_of bool N
            (perform_all bool unit N true sample_calls_bound sample_bound)))
    = Some d'.
Proof.
  eapply (binding_is_permanent bool unit N true sample_bound).
  - apply perform_all_steps with (cs := sample_calls_bound).
    vm_compute. reflexivity.
  - reflexivity.
Defined.

Local Abbreviation reply_twice :=
  {| reply_error := net.OK; reply_result := flagged;
     reply_later := Some (flagged, net.OK) |}.

Lemma anchor_use_signalled_per_check_witness :
  exists w1 w2,
    Verify bool unit N true 11%N 2%N reply_twice sample_bound
      = Ok bool N Z net.OK w1
    /\ engine_completion bool unit N
         (wrapped_callback_of bool (this bool N sample_bound) 2%N)
         reply_twice w1 = Ok bool N unit tt w2
    /\ count_events bool N (is_AnchorUsedRun bool N) (log bool N w2) = 2%nat.
Proof.
  destruct (anchor_use_signalled_per_check bool unit N true 11%N 2%N
              reply_twice sample_bound _ 5%N flagged
              eq_refl eq_refl eq_refl eq_refl eq_refl eq_refl)
    as (w1 & w2 & Hv & Hc & Hlog).
  exists w1, w2. split; [exact Hv|]. split; [exact Hc|].
  rewrite Hlog. reflexivity.
Defined.

Lemma SetTrustAnchors_replaces_witness :
  exists w',
    SetTrustAnchors bool N [9%N; 7%N] sample_bound = Ok bool N unit tt w'
    /\ trust_anchors_ bool (this bool N w') = [9%N; 7%N]
    /\ log bool N w'
       = log bool N sample_bound
           ++ [DelegateSetConfig bool N
                 (ExtendTrustAnchors bool sample_config [9%N; 7%N])].
Proof.
  destruct (SetTrustAnchors_replaces bool N [9%N; 7%N] sample_bound _ eq_refl)
    as (w' & c & Hrun & -> & Hset & _ & _ & Hlog & _).
  - intros H. discriminate H.
  - exists w'. split; [exact Hrun|]. split; [exact Hset|exact Hlog].
Defined.

Lemma SetConfig_initialized_witness :
  exists w',
    SetConfig bool N {| additional_trust_anchors := [1%N]; config_rest := false |}
      sample_bound = Ok bool N unit tt w'
    /\ orig_config_ bool (this bool N w')
       = {| additional_trust_anchors := [1%N]; config_rest := false |}
    /\ log bool N w'
       = log bool N sample_bound
           ++ [DelegateSetConfig bool N
                 {| additional_trust_anchors := [7%N; 9%N; 1%N];
                    config_rest := false |}].
Proof.
  destruct (SetConfig_initialized bool N
              {| additional_trust_anchors := [1%N]; config_rest := false |}
              sample_bound _ eq_refl)
    as (w' & Hrun & Horig & _ & _ & _ & Hlog).
  exists w'. split; [exact Hrun|]. split; [exact Horig|exact Hlog].
Defined.

Lemma SetConfig_reconfigures_every_time_witness :
  exists w1 w2,
    SetConfig bool N sample_config sample_bound = Ok bool N unit tt w1
    /\ SetConfig bool N sample_config w1 = Ok bool N unit tt w2
    /\ this bool N w2 = this bool N w1
    /\ count_events bool N (is_DelegateSetConfig bool N) (log bool N w2)
       = 3%nat.
Proof.
  destruct (SetConfig_reconfigures_every_time bool N sample_config
              sample_bound _ eq_refl)
    as (w1 & w2 & H1 & H2 & Hthis & Hlog).
  exists w1, w2. split; [exact H1|]. split; [exact H2|].
  split; [exact Hthis|]. rewrite Hlog. reflexivity.
Defined.

Lemma SetConfig_SetTrustAnchors_commute_witness :
  exists w1 w2,
    bind bool N
      (SetConfig bool N {| additional_trust_anchors := [1%N];
                           config_rest := false |})
      (fun _ => SetTrustAnchors bool N [8%N]) sample_bound
    = Ok bool N unit tt w1
    /\ bind bool N (SetTrustAnchors bool N [8%N])
         (fun _ => SetConfig bool N {| additional_trust_anchors := [1%N];
                                       config_rest := false |}) sample_bound
       = Ok bool N unit tt w2
    /\ this bool N w1 = this bool N w2.
Proof.
  destruct (SetConfig_SetTrustAnchors_commute bool N
              {| additional_trust_anchors := [1%N]; config_rest := false |}
              [8%N] sample_bound _ eq_refl)
    as (w1 & w2 & H1 & H2 & Hthis & _).
  exists w1, w2. split; [exact H1|]. split; [exact H2|exact Hthis].
Defined.

Lemma ExtendTrustAnchors_algebra_witness :
  ExtendTrustAnchors bool (ExtendTrustAnchors bool sample_config [7%N]) [8%N]
    = ExtendTrustAnchors bool sample_config [8%N; 7%N]
  /\ @nil N = [].
Proof.
  split.
  - exact (proj1 (ExtendTrustAnchors_algebra bool sample_config [7%N] [8%N])).
  - apply (proj2 (proj2 (ExtendTrustAnchors_algebra bool sample_config [] []))).
    reflexivity.
Defined.

(** The factory with creators that always return the sample procedure. *)
Local Abbreviation sample_create :=
  (fun _ : ProcCreation N N N => Some sample_proc).
Local Abbreviation sample_moved_from := (fun _ : option N => @None N).
Local Abbreviation sample_impl_params :=
  {| crl_set := Some 30%N; root_store_data := @None N |}.
Local Abbreviation linux_optional :=
  {| CHROME_ROOT_STORE_OPTIONAL := true; CHROME_ROOT_STORE_ONLY := false;
     IS_FUCHSIA := false; IS_LINUX := true; IS_CHROMEOS := false |}.
Local Abbreviation linux_only :=
  {| CHROME_ROOT_STORE_OPTIONAL := true; CHROME_ROOT_STORE_ONLY := true;
     IS_FUCHSIA := false; IS_LINUX := true; IS_CHROMEOS := false |}.
Local Abbreviation other_platform :=
  {| CHROME_ROOT_STORE_OPTIONAL := false; CHROME_ROOT_STORE_ONLY := false;
     IS_FUCHSIA := false; IS_LINUX := false; IS_CHROMEOS := false |}.

Lemma CreateCertVerifyProc_creates_once_witness :
  CreateCertVerifyProc N N N sample_create sample_moved_from linux_optional
    false (Some 20%N) sample_impl_params
  = (Some sample_proc, [BuiltinVerifyProc N N N (Some 20%N) (Some 30%N)]).
Proof.
  apply (CreateCertVerifyProc_creates_once N N N sample_create
           sample_moved_from linux_optional false (Some 20%N)
           sample_impl_params).
  intros c. exists sample_proc. reflexivity.
Defined.

Lemma CreateCertVerifyProc_root_store_only_witness :
  Forall (fun c => is_chrome_root_store N N N c = true)
    (snd (CreateCertVerifyProc N N N sample_create sample_moved_from
            linux_only false (Some 20%N) sample_impl_params)).
Proof.
  apply (CreateCertVerifyProc_root_store_only N N N sample_create
           sample_moved_from linux_only false (Some 20%N) sample_impl_params).
  reflexivity.
Defined.

Lemma CreateCertVerifyProc_feature_ignored_witness :
  CreateCertVerifyProc N N N sample_create sample_moved_from other_platform
    true (Some 20%N) sample_impl_params
  = CreateCertVerifyProc N N N sample_create sample_moved_from other_platform
      false (Some 20%N) sample_impl_params.
Proof.
  apply (CreateCertVerifyProc_feature_ignored N N N sample_create
           sample_moved_from other_platform (Some 20%N) sample_impl_params).
  reflexivity.
Defined.
